(** * Chat page: message-list reconciliation

    A shallow embedding of [src/Page/Chat.tsx] (the version with the three
    subscriptions: [messagePosted], [messageUpdated], [messageDeleted]).

    The component keeps its state in React state variables and changes it
    from asynchronous functions and subscription callbacks.  Each of these
    is embedded as a command tree ([Cmd]): the network requests it awaits,
    the state updates it performs and the toasts it shows, in program
    order.  [run] executes a command against the answers of the network
    and returns the final state with the trace of observable effects. *)

From Stdlib Require Import NArith Ascii String.
From stdpp Require Import base tactics option list.

Set Default Proof Using "Type".
Open Scope N_scope.
Open Scope list_scope.

(** ** Strings

    A JavaScript string is a sequence of 16-bit code units; [===] on two
    strings compares these sequences. *)

Abbreviation jsstring := (list N).

(** An ASCII literal of the source as a sequence of code units. *)
Definition lit (s : string) : jsstring :=
  N_of_ascii <$> list_ascii_of_string s.

(** ECMAScript WhiteSpace: TAB, VT, FF, ZWNBSP and the code points of the
    Unicode category Space_Separator (all of them are single code units). *)
Definition isWhiteSpace (c : N) : bool :=
  (c =? 0x0009) || (c =? 0x000B) || (c =? 0x000C) || (c =? 0xFEFF)
  || (c =? 0x0020) || (c =? 0x00A0) || (c =? 0x1680)
  || ((0x2000 <=? c) && (c <=? 0x200A))
  || (c =? 0x202F) || (c =? 0x205F) || (c =? 0x3000).

(** ECMAScript LineTerminator: LF, CR, LS, PS. *)
Definition isLineTerminator (c : N) : bool :=
  (c =? 0x000A) || (c =? 0x000D) || (c =? 0x2028) || (c =? 0x2029).

(** The code units that [String.prototype.trim] strips. *)
Definition isTrimmed (c : N) : bool := isWhiteSpace c || isLineTerminator c.

Fixpoint trimStart (s : jsstring) : jsstring :=
  match s with
  | [] => []
  | c :: s' => if isTrimmed c then trimStart s' else s
  end.

Definition trimEnd (s : jsstring) : jsstring :=
  reverse (trimStart (reverse s)).

(** [s.trim()] *)
Definition trim (s : jsstring) : jsstring := trimEnd (trimStart s).

(** [ToBoolean] of a string: only the empty string is falsy. *)
Definition truthy (s : jsstring) : bool :=
  match s with
  | [] => false
  | _ :: _ => true
  end.

(** ** Data model *)

(** [type Message = { id; user; text; createdAt }] *)
Module Message.
Record t : Type := mk {
  id : jsstring;
  user : jsstring;
  text : jsstring;
  createdAt : jsstring
}.
End Message.

#[global] Instance Message_eq_dec : EqDecision Message.t.
Proof. solve_decision. Defined.

(** The payload of [messageDeleted] and [deleteMessage]: [{ id success }]. *)
Module DeleteResult.
Record t : Type := mk {
  id : jsstring;
  success : bool
}.
End DeleteResult.

(** A GraphQL result [{ data: ... }]; [data] can be missing or [null]. *)
Module Result.
Record t (D : Type) : Type := mk { data : option D }.
Arguments mk {D} _.
Arguments data {D} _.
End Result.

(** The [data] objects of the operations the component reads, typed as the
    GraphQL schema of the server gives them ([messages: [Message]], ...);
    a field that is missing or [null] is [None]. *)
Module QueryData.
Record t : Type := mk { messages : option (list Message.t) }.
End QueryData.

Module PostedData.
Record t : Type := mk { messagePosted : option Message.t }.
End PostedData.

Module UpdatedData.
Record t : Type := mk { messageUpdated : option Message.t }.
End UpdatedData.

Module DeletedData.
Record t : Type := mk { messageDeleted : option DeleteResult.t }.
End DeletedData.

(** The state variables of [App] ([useState]). *)
Record AppState : Type := mkState {
  messages : list Message.t;
  user : jsstring;
  text : jsstring;
  editingId : option jsstring;
  editingText : jsstring
}.

#[global] Instance AppState_eq_dec : EqDecision AppState.
Proof. solve_decision. Defined.

(** The state setters.  [setMessages] takes an updater, as in
    [setMessages((prev) => ...)]; [setMessages(v)] is [setMessages (const v)]. *)
Definition setMessages (upd : list Message.t -> list Message.t)
    (s : AppState) : AppState :=
  mkState (upd (messages s)) (user s) (text s) (editingId s) (editingText s).

Definition setText (v : jsstring) (s : AppState) : AppState :=
  mkState (messages s) (user s) v (editingId s) (editingText s).

Definition setEditingId (v : option jsstring) (s : AppState) : AppState :=
  mkState (messages s) (user s) (text s) v (editingText s).

Definition setEditingText (v : jsstring) (s : AppState) : AppState :=
  mkState (messages s) (user s) (text s) (editingId s) v.

(** ** Effects *)

(** The requests sent with [fetch(GRAPHQL_HTTP, ...)], by operation and
    variables. *)
Inductive Request : Type :=
  | QueryMessages
  | PostMessage (user text : jsstring)
  | UpdateMessage (id text : jsstring)
  | DeleteMessage (id : jsstring).

(** The answer to one request: the promise rejects (network failure, or a
    body that [res.json()] cannot parse) or resolves with the parsed body
    ([None] is a [null] body). *)
Inductive FetchResult : Type :=
  | Rejected
  | Resolved (json : option (Result.t QueryData.t)).

(** What can be observed from outside the state. *)
Inductive Effect : Type :=
  | NetworkCall (r : Request)
  | Toast (msg : jsstring).

#[global] Instance Request_eq_dec : EqDecision Request.
Proof. solve_decision. Defined.

#[global] Instance Effect_eq_dec : EqDecision Effect.
Proof. solve_decision. Defined.

(** The body of an async function or callback. *)
Inductive Cmd : Type :=
  | Return
  | Fetch (r : Request) (k : option (Result.t QueryData.t) -> Cmd)
  | SetState (upd : AppState -> AppState) (k : Cmd)
  | ShowToast (msg : jsstring) (k : Cmd).

(** [run c net s] runs [c] from state [s]; [net] holds the answers to the
    requests of [c], in the order they are sent.  A request is recorded
    when it is sent.  When its promise rejects the [await] throws and the
    rest of the body is skipped; when there is no answer (yet) the body
    stays suspended at the [await]. *)
Fixpoint run (c : Cmd) (net : list FetchResult) (s : AppState)
    : AppState * list Effect :=
  match c with
  | Return => (s, [])
  | Fetch r k =>
      match net with
      | [] => (s, [NetworkCall r])
      | Rejected :: _ => (s, [NetworkCall r])
      | Resolved json :: net' =>
          let '(s', es) := run (k json) net' s in (s', NetworkCall r :: es)
      end
  | SetState upd k => run k net (upd s)
  | ShowToast msg k =>
      let '(s', es) := run k net s in (s', Toast msg :: es)
  end.

(** ** The component *)

(** [fetchMessages]: [if (json?.data?.messages) setMessages(json.data.messages)].
    An array is truthy, also the empty one. *)
Definition fetchMessages : Cmd :=
  Fetch QueryMessages (fun json =>
    match (json ≫= Result.data) ≫= QueryData.messages with
    | Some l => SetState (setMessages (const l)) Return
    | None => Return
    end).

(** [messagePosted] subscription, [next]. *)
Definition messagePosted_next (data : option (Result.t PostedData.t)) : Cmd :=
  match (data ≫= Result.data) ≫= PostedData.messagePosted with
  | Some m =>
      SetState (setMessages (fun prev => prev ++ [m]))
        (ShowToast (lit "New message from " ++ Message.user m
                      ++ lit ": " ++ Message.text m)
           Return)
  | None => Return
  end.

(** [messageUpdated] subscription, [next]. *)
Definition messageUpdated_next (data : option (Result.t UpdatedData.t)) : Cmd :=
  match (data ≫= Result.data) ≫= UpdatedData.messageUpdated with
  | Some m =>
      SetState
        (setMessages (fun prev =>
           (fun msg => if decide (Message.id msg = Message.id m) then m else msg)
             <$> prev))
        (ShowToast (lit "Message updated by " ++ Message.user m) Return)
  | None => Return
  end.

(** [messageDeleted] subscription, [next]:
    [if (deleteData && deleteData.success)]. *)
Definition messageDeleted_next (data : option (Result.t DeletedData.t)) : Cmd :=
  match (data ≫= Result.data) ≫= DeletedData.messageDeleted with
  | Some deleteData =>
      if DeleteResult.success deleteData then
        SetState
          (setMessages (fun prev =>
             filter (fun msg => Message.id msg <> DeleteResult.id deleteData) prev))
          (ShowToast (lit "Message deleted") Return)
      else Return
  | None => Return
  end.

(** [sendMessage], called in a render with state [s]: the closure reads
    [user] and [text] of that render. *)
Definition sendMessage (s : AppState) : Cmd :=
  if negb (truthy (trim (text s))) then Return
  else
    Fetch (PostMessage (user s) (text s)) (fun _ =>
      SetState (setText []) fetchMessages).

(** [saveEdit(id)], called in a render with state [s]. *)
Definition saveEdit (id : jsstring) (s : AppState) : Cmd :=
  if negb (truthy (trim (editingText s))) then Return
  else
    Fetch (UpdateMessage id (editingText s)) (fun _ =>
      SetState (setEditingId None)
        (SetState (setEditingText []) fetchMessages)).

(** [deleteMessage(id)]. *)
Definition deleteMessage (id : jsstring) : Cmd :=
  Fetch (DeleteMessage id) (fun _ => fetchMessages).

(** ** Events and responses *)

(** The subscription events that carry a payload. *)
Definition postedEvent (m : Message.t) : option (Result.t PostedData.t) :=
  Some (Result.mk (Some (PostedData.mk (Some m)))).

Definition updatedEvent (m : Message.t) : option (Result.t UpdatedData.t) :=
  Some (Result.mk (Some (UpdatedData.mk (Some m)))).

Definition deletedEvent (id : jsstring) (success : bool)
    : option (Result.t DeletedData.t) :=
  Some (Result.mk (Some (DeletedData.mk (Some (DeleteResult.mk id success))))).

(** The response to the [messages] query that carries the list [l]. *)
Definition messagesResponse (l : list Message.t) : FetchResult :=
  Resolved (Some (Result.mk (Some (QueryData.mk (Some l))))).

(** The identifiers of a collection, in order. *)
Definition ids (l : list Message.t) : list jsstring := Message.id <$> l.

(** How many entries of a collection carry the identifier [i]. *)
Definition countId (i : jsstring) (l : list Message.t) : nat :=
  length (filter (fun msg => Message.id msg = i) l).

(** A text that is empty or whitespace only. *)
Definition blank (s : jsstring) : Prop := Forall (fun c => isTrimmed c = true) s.

(** ** Sample data *)

(** The state of the first render; [handle] is ["User" + Math.floor(Math.random() * 1000)]. *)
Definition initialState (handle : jsstring) : AppState :=
  mkState [] handle [] None [].

Definition msgHi : Message.t :=
  Message.mk (lit "1") (lit "A") (lit "hi") (lit "t1").

(** Same identifier as [msgHi], every other field different. *)
Definition msgHello : Message.t :=
  Message.mk (lit "1") (lit "B") (lit "hello") (lit "t2").

Definition msgYo : Message.t :=
  Message.mk (lit "2") (lit "C") (lit "yo") (lit "t3").

(** A collection with pairwise distinct identifiers. *)
Definition distinctState : AppState :=
  mkState [msgHi; msgYo] (lit "A") [] None [].

(** A collection in which the identifier ["1"] occurs twice. *)
Definition duplicateState : AppState :=
  mkState [msgHi; msgYo; msgHi] (lit "A") [] None [].

(** A state whose input fields hold blanks only (space, tab, NBSP, LF). *)
Definition blankState : AppState :=
  mkState [msgHi] (lit "A") [0x20; 0x09; 0xA0; 0x0A] (Some (lit "1"))
    [0x20; 0x09; 0xA0; 0x0A].

(** ** The rest of the component *)

(** [setUser], the setter of the handle. *)
Definition setUser (v : jsstring) (s : AppState) : AppState :=
  mkState (messages s) v (text s) (editingId s) (editingText s).

(** What the server pushes to the component: an event of one of the three
    subscriptions, or the answer to a [fetchMessages] call. *)
Inductive Incoming : Type :=
  | Posted (data : option (Result.t PostedData.t))
  | Updated (data : option (Result.t UpdatedData.t))
  | Deleted (data : option (Result.t DeletedData.t))
  | Refetched (r : FetchResult).

(** The callback that receives an input, run on the current state. *)
Definition deliver (e : Incoming) (s : AppState) : AppState * list Effect :=
  match e with
  | Posted data => run (messagePosted_next data) [] s
  | Updated data => run (messageUpdated_next data) [] s
  | Deleted data => run (messageDeleted_next data) [] s
  | Refetched r => run fetchMessages [r] s
  end.

(** The inputs are handled one after the other, in the order they arrive. *)
Fixpoint replay (es : list Incoming) (s : AppState) : AppState :=
  match es with
  | [] => s
  | e :: es' => replay es' (deliver e s).1
  end.

(** The message list a response carries ([json?.data?.messages]). *)
Definition listOf (r : FetchResult) : option (list Message.t) :=
  match r with
  | Rejected => None
  | Resolved json => (json ≫= Result.data) ≫= QueryData.messages
  end.

(** The messages an input carries. *)
Definition carried (e : Incoming) : list Message.t :=
  match e with
  | Posted data =>
      option_list ((data ≫= Result.data) ≫= PostedData.messagePosted)
  | Updated data =>
      option_list ((data ≫= Result.data) ≫= UpdatedData.messageUpdated)
  | Deleted _ => []
  | Refetched r => default [] (listOf r)
  end.

(** *** The rendered list

    One row per entry of [messages], in order.  The time shown beside the
    author depends on the locale of the browser and is left out. *)
Inductive RowBody : Type :=
  | Editor (value : jsstring)
  | Plain (text : jsstring).

Record Row : Type := mkRow {
  key : jsstring;
  isOwn : bool;
  author : jsstring;
  body : RowBody
}.

#[global] Instance RowBody_eq_dec : EqDecision RowBody.
Proof. solve_decision. Defined.

(** [isOwn = m.user === user]; the row shows the editor when
    [editingId === m.id], and the text of the message otherwise. *)
Definition renderRow (s : AppState) (m : Message.t) : Row :=
  mkRow (Message.id m)
    (bool_decide (Message.user m = user s))
    (Message.user m)
    (if decide (editingId s = Some (Message.id m))
     then Editor (editingText s)
     else Plain (Message.text m)).

Definition render (s : AppState) : list Row := renderRow s <$> messages s.

(** Whether a row shows the editor. *)
Definition isEditor (r : Row) : bool :=
  match body r with
  | Editor _ => true
  | Plain _ => false
  end.

(** *** The controls

    What the user can do with the rendered page; [n] is the position of a
    row. *)
Inductive UserAction : Type :=
  | ChangeUser (v : jsstring)
  | ChangeText (v : jsstring)
  | KeyDown (key : jsstring)
  | ClickSend
  | ClickEdit (n : nat)
  | ClickDelete (n : nat)
  | ChangeEditingText (n : nat) (v : jsstring)
  | ClickSave (n : nat)
  | ClickCancel (n : nat).

(** The handler an action triggers in the render of state [s]; [None] when
    the control is not rendered: Edit and Delete exist in the rows with
    [isOwn], the edit input with Save and Cancel in the rows that show the
    editor. *)
Definition dispatch (a : UserAction) (s : AppState) : option Cmd :=
  match a with
  | ChangeUser v => Some (SetState (setUser v) Return)
  | ChangeText v => Some (SetState (setText v) Return)
  | KeyDown key =>
      Some (if decide (key = lit "Enter") then sendMessage s else Return)
  | ClickSend => Some (sendMessage s)
  | ClickEdit n =>
      m ← messages s !! n;
      if isOwn (renderRow s m) then
        Some (SetState (setEditingId (Some (Message.id m)))
                (SetState (setEditingText (Message.text m)) Return))
      else None
  | ClickDelete n =>
      m ← messages s !! n;
      if isOwn (renderRow s m) then Some (deleteMessage (Message.id m))
      else None
  | ChangeEditingText n v =>
      m ← messages s !! n;
      if isEditor (renderRow s m) then Some (SetState (setEditingText v) Return)
      else None
  | ClickSave n =>
      m ← messages s !! n;
      if isEditor (renderRow s m) then Some (saveEdit (Message.id m) s)
      else None
  | ClickCancel n =>
      m ← messages s !! n;
      if isEditor (renderRow s m) then Some (SetState (setEditingId None) Return)
      else None
  end.

(** A state in which the message ["1"], with a text that is not blank, is
    being edited. *)
Definition editingState : AppState :=
  mkState [msgHi; msgYo] (lit "A") (lit " hey ") (Some (lit "1")) (lit "hi!").

(** ** Trimming *)

Section trimming.
Implicit Types s : jsstring.

Lemma trimStart_nil_iff s : trimStart s = [] <-> blank s.
Proof.
  unfold blank. induction s as [|c s IH]; simpl.
  - split; [constructor | done].
  - destruct (isTrimmed c) eqn:Hc.
    + rewrite IH. split; [by constructor | by inversion 1].
    + split; [done | inversion 1; congruence].
Qed.

(** What [trimStart] leaves starts with a code unit that is kept. *)
Lemma trimStart_head s c r : trimStart s = c :: r -> isTrimmed c = false.
Proof.
  induction s as [|d s IH]; simpl; [done |].
  destruct (isTrimmed d) eqn:Hd; [done |]. by intros [= <- _].
Qed.

Lemma trim_nil_iff s : trim s = [] <-> blank s.
Proof.
  unfold trim, trimEnd. split.
  - intros H. apply trimStart_nil_iff.
    destruct (trimStart s) as [|c r] eqn:Hs; [done | exfalso].
    apply (f_equal reverse) in H. rewrite reverse_involutive in H.
    change (reverse []) with (@nil N) in H.
    apply trimStart_nil_iff in H. unfold blank in H.
    rewrite Forall_reverse in H. inversion H as [|? ? Hc _]; subst.
    apply trimStart_head in Hs. congruence.
  - intros H. apply trimStart_nil_iff in H. by rewrite H.
Qed.

Lemma truthy_trim_blank s : blank s -> truthy (trim s) = false.
Proof. intros H. apply trim_nil_iff in H. by rewrite H. Qed.

Lemma truthy_trim_not_blank s : ~ blank s -> truthy (trim s) = true.
Proof.
  intros H. destruct (trim s) eqn:Ht; [|done].
  by apply trim_nil_iff in Ht.
Qed.
End trimming.

(** ** What each callback does to the state *)

Section handlers.
Implicit Types (s : AppState) (m : Message.t) (net : list FetchResult).

Lemma run_messagePosted m net s :
  run (messagePosted_next (postedEvent m)) net s =
    (setMessages (fun prev => prev ++ [m]) s,
     [Toast (lit "New message from " ++ Message.user m
               ++ lit ": " ++ Message.text m)]).
Proof. reflexivity. Qed.

Lemma run_messageUpdated m net s :
  run (messageUpdated_next (updatedEvent m)) net s =
    (setMessages (fun prev =>
       (fun msg => if decide (Message.id msg = Message.id m) then m else msg)
         <$> prev) s,
     [Toast (lit "Message updated by " ++ Message.user m)]).
Proof. reflexivity. Qed.

Lemma run_messageDeleted_success (i : jsstring) net s :
  run (messageDeleted_next (deletedEvent i true)) net s =
    (setMessages (filter (fun msg => Message.id msg <> i)) s,
     [Toast (lit "Message deleted")]).
Proof. reflexivity. Qed.

Lemma run_messageDeleted_failure (i : jsstring) net s :
  run (messageDeleted_next (deletedEvent i false)) net s = (s, []).
Proof. reflexivity. Qed.

(** An updater that gives back the collection it gets changes nothing. *)
Lemma setMessages_fixed (upd : list Message.t -> list Message.t) s :
  upd (messages s) = messages s -> setMessages upd s = s.
Proof. destruct s. unfold setMessages. simpl. by intros ->. Qed.
End handlers.

(** ** Facts about the two list operations of the handlers *)

Section lists.
Implicit Types (l : list Message.t) (m : Message.t) (i : jsstring).

(** Filtering on the identifier keeps a list without that identifier. *)
Lemma filter_absent i l :
  i ∉ ids l -> filter (fun msg => Message.id msg <> i) l = l.
Proof.
  unfold ids. induction l as [|x l IH]; [done |].
  rewrite fmap_cons, not_elem_of_cons. intros [Hx Hl].
  rewrite filter_cons_True by done. by rewrite IH.
Qed.

Lemma filter_no_match i l :
  i ∉ ids (filter (fun msg => Message.id msg <> i) l).
Proof.
  unfold ids. rewrite list_elem_of_fmap. intros (x & -> & Hx).
  apply list_elem_of_filter in Hx. by destruct Hx.
Qed.

(** The entries removed are the entries counted by [countId]. *)
Lemma filter_length_countId i l :
  (length (filter (fun msg => Message.id msg <> i) l) + countId i l
   = length l)%nat.
Proof.
  unfold countId. induction l as [|x l IH]; [done |].
  destruct (decide (Message.id x = i)) as [Hx|Hx].
  - rewrite filter_cons_False by (by intros H; apply H).
    rewrite (filter_cons_True (fun msg => Message.id msg = i)) by done.
    simpl. lia.
  - rewrite filter_cons_True by done.
    rewrite (filter_cons_False (fun msg => Message.id msg = i)) by done.
    simpl. lia.
Qed.


Lemma countId_present i l : i ∈ ids l -> (0 < countId i l)%nat.
Proof.
  unfold ids, countId. rewrite list_elem_of_fmap. intros (x & -> & Hx).
  assert (x ∈ filter (fun msg => Message.id msg = Message.id x) l) as Hin
    by (by apply list_elem_of_filter).
  destruct (filter _ l); [by apply elem_of_nil in Hin | simpl; lia].
Qed.


(** Replacing by identifier does nothing when the identifier is absent. *)
Lemma replace_absent m l :
  Message.id m ∉ ids l ->
  (fun msg => if decide (Message.id msg = Message.id m) then m else msg)
    <$> l = l.
Proof.
  unfold ids. induction l as [|x l IH]; [done |].
  rewrite !fmap_cons, not_elem_of_cons. intros [Hx Hl].
  rewrite IH by done. by rewrite decide_False by done.
Qed.
End lists.

(** ** The mutation dispatcher guards *)

Lemma run_sendMessage_blank s net :
  blank (text s) -> run (sendMessage s) net s = (s, []).
Proof.
  intros H. unfold sendMessage. by rewrite truthy_trim_blank.
Qed.

Lemma run_saveEdit_blank id s net :
  blank (editingText s) -> run (saveEdit id s) net s = (s, []).
Proof.
  intros H. unfold saveEdit. by rewrite truthy_trim_blank.
Qed.

(** A body that starts with a request sends it, whatever the answer. *)
Lemma run_Fetch_sends r k net s :
  exists es, (run (Fetch r k) net s).2 = NetworkCall r :: es.
Proof.
  destruct net as [|[|json] net]; simpl; eauto.
  destruct (run (k json) net s); simpl; eauto.
Qed.

(** The guard is the only way out without a request: any other text is
    sent to the server. *)
Lemma run_sendMessage_not_blank s net :
  ~ blank (text s) ->
  exists es, (run (sendMessage s) net s).2
             = NetworkCall (PostMessage (user s) (text s)) :: es.
Proof.
  intros H. unfold sendMessage. rewrite truthy_trim_not_blank by done.
  apply run_Fetch_sends.
Qed.

(** ** Sync controller *)

(** C3: the [messagePosted] handler appends the message of the event at
    the end of the collection, whatever the collection holds, so the
    length grows by exactly one. *)
Theorem messagePosted_appends (s : AppState) (m : Message.t)
    (net : list FetchResult) :
  let s' := (run (messagePosted_next (postedEvent m)) net s).1 in
  messages s' = messages s ++ [m]
  /\ length (messages s') = S (length (messages s)).
Proof.
  rewrite run_messagePosted. simpl. split; [done |].
  rewrite length_app. simpl. lia.
Qed.

(** C4: once the request of [fetchMessages] resolves with a body that
    carries a message list, the collection is that list, in the order of
    the response, whatever it was before. *)
Theorem fetchMessages_replaces (s : AppState) (l : list Message.t)
    (net : list FetchResult) :
  messages (run fetchMessages (messagesResponse l :: net) s).1 = l
  /\ (run fetchMessages (messagesResponse l :: net) s).2
     = [NetworkCall QueryMessages].
Proof. split; reflexivity. Qed.

(** C5: when the request of [fetchMessages] fails (the promise rejects, or
    the body has no [data.messages]) the state, and so the collection, is
    the one before the call. *)
Theorem fetchMessages_failure_keeps (s : AppState) (r : FetchResult)
    (net : list FetchResult) :
  (r = Rejected
   \/ exists json, r = Resolved json
        /\ (json ≫= Result.data) ≫= QueryData.messages = None) ->
  (run fetchMessages (r :: net) s).1 = s
  /\ messages (run fetchMessages (r :: net) s).1 = messages s.
Proof.
  intros [-> | (json & -> & Hjson)]; [done |].
  simpl. by rewrite Hjson.
Qed.

Lemma fetchMessages_failure_keeps_witness :
  (run fetchMessages [Resolved (Some (Result.mk None))] duplicateState).1
    = duplicateState
  /\ messages
       (run fetchMessages [Resolved (Some (Result.mk None))] duplicateState).1
     = messages duplicateState.
Proof.
  apply (fetchMessages_failure_keeps duplicateState
           (Resolved (Some (Result.mk None))) []).
  right. exists (Some (Result.mk None)). split; reflexivity.
Defined.

(** C6: with a text that is empty or whitespace only, [sendMessage] and
    [saveEdit] return at their guard: no request is sent, nothing else is
    observable and the state is the one before the call. *)
Theorem blank_text_is_noop (t : jsstring) (s : AppState) (id : jsstring)
    (net : list FetchResult) :
  blank t ->
  (text s = t -> run (sendMessage s) net s = (s, []))
  /\ (editingText s = t -> run (saveEdit id s) net s = (s, [])).
Proof.
  intros Ht. split; intros <-.
  - by apply run_sendMessage_blank.
  - by apply run_saveEdit_blank.
Qed.

Lemma blank_text_is_noop_witness :
  run (sendMessage blankState) [messagesResponse []] blankState
    = (blankState, [])
  /\ run (saveEdit (lit "1") blankState) [messagesResponse []] blankState
     = (blankState, []).
Proof.
  destruct (blank_text_is_noop [0x20; 0x09; 0xA0; 0x0A] blankState (lit "1")
              [messagesResponse []]) as [Hsend Hsave].
  - unfold blank. repeat constructor.
  - split; [apply Hsend | apply Hsave]; reflexivity.
Defined.

(** The scenario of the three events in a row: post, update, delete. *)
Example post_update_delete :
  let handled c st := (run c [] st).1 in
  let s1 := handled (messagePosted_next (postedEvent msgHi))
              (initialState (lit "A")) in
  let s2 := handled (messageUpdated_next (updatedEvent msgHello)) s1 in
  let s3 := handled (messageDeleted_next (deletedEvent (lit "1") true)) s2 in
  messages s1 = [msgHi] /\ messages s2 = [msgHello] /\ messages s3 = [].
Proof. repeat split. Qed.

(** *** messageUpdated *)

(** C1: for a message whose identifier is in the collection, the
    [messageUpdated] handler keeps the length, leaves every entry with
    another identifier where and as it was, and puts the message of the
    event at the positions whose identifier matches; the message is in
    the collection afterwards. *)
Theorem messageUpdated_present (s : AppState) (m : Message.t)
    (net : list FetchResult) :
  Message.id m ∈ ids (messages s) ->
  let s' := (run (messageUpdated_next (updatedEvent m)) net s).1 in
  length (messages s') = length (messages s)
  /\ (forall (i : nat) (msg : Message.t),
        messages s !! i = Some msg ->
        Message.id msg <> Message.id m ->
        messages s' !! i = Some msg)
  /\ (forall (i : nat) (msg : Message.t),
        messages s !! i = Some msg ->
        Message.id msg = Message.id m ->
        messages s' !! i = Some m)
  /\ m ∈ messages s'.
Proof.
  intros Hin. rewrite run_messageUpdated. simpl.
  split; [by rewrite length_fmap |].
  split; [| split].
  - intros i msg Hi Hne. rewrite list_lookup_fmap, Hi. simpl.
    by rewrite decide_False by done.
  - intros i msg Hi He. rewrite list_lookup_fmap, Hi. simpl.
    by rewrite decide_True by done.
  - unfold ids in Hin. apply list_elem_of_fmap in Hin as (x & Hx & Hin).
    apply list_elem_of_fmap. exists x. split; [| done].
    by rewrite decide_True by done.
Qed.

Lemma messageUpdated_present_witness :
  let s' := (run (messageUpdated_next (updatedEvent msgHello)) []
               distinctState).1 in
  length (messages s') = length (messages distinctState)
  /\ messages s' !! 1%nat = Some msgYo
  /\ messages s' !! 0%nat = Some msgHello
  /\ msgHello ∈ messages s'.
Proof.
  destruct (messageUpdated_present distinctState msgHello [])
    as (Hlen & Hother & Hsame & Hin).
  - unfold distinctState, ids. simpl. apply list_elem_of_here.
  - split; [exact Hlen |]. split; [| split; [| exact Hin]].
    + apply Hother; [reflexivity | discriminate].
    + apply (Hsame 0%nat msgHi); reflexivity.
Defined.

(** C7: for a message whose identifier is not in the collection, the
    [messageUpdated] handler leaves the collection, and the rest of the
    state, as it was. *)
Theorem messageUpdated_absent (s : AppState) (m : Message.t)
    (net : list FetchResult) :
  Message.id m ∉ ids (messages s) ->
  messages (run (messageUpdated_next (updatedEvent m)) net s).1 = messages s
  /\ (run (messageUpdated_next (updatedEvent m)) net s).1 = s.
Proof.
  intros Hout. rewrite run_messageUpdated. simpl.
  split; [by apply replace_absent |].
  apply setMessages_fixed. by apply replace_absent.
Qed.

Lemma messageUpdated_absent_witness :
  messages (run (messageUpdated_next (updatedEvent msgYo)) []
              (setMessages (const [msgHi]) distinctState)).1 = [msgHi].
Proof.
  apply (messageUpdated_absent (setMessages (const [msgHi]) distinctState)
           msgYo []).
  unfold ids. simpl. intros H. apply list_elem_of_singleton in H. discriminate H.
Defined.

(** C10: at every position whose identifier matches, the stored record
    becomes the message of the event as a whole: author handle, body text
    and creation timestamp are those of the event. *)
Theorem messageUpdated_whole_record (s : AppState) (m : Message.t)
    (net : list FetchResult) (i : nat) (msg : Message.t) :
  messages s !! i = Some msg ->
  Message.id msg = Message.id m ->
  let after := messages (run (messageUpdated_next (updatedEvent m)) net s).1 in
  after !! i = Some m
  /\ Message.user <$> (after !! i) = Some (Message.user m)
  /\ Message.text <$> (after !! i) = Some (Message.text m)
  /\ Message.createdAt <$> (after !! i) = Some (Message.createdAt m).
Proof.
  intros Hi He. rewrite run_messageUpdated. simpl.
  assert (((fun x => if decide (Message.id x = Message.id m) then m else x)
             <$> messages s) !! i = Some m) as ->; [| done].
  rewrite list_lookup_fmap, Hi. simpl. by rewrite decide_True by done.
Qed.

Lemma messageUpdated_whole_record_witness :
  let after := messages (run (messageUpdated_next (updatedEvent msgHello)) []
                           distinctState).1 in
  after !! 0%nat = Some msgHello
  /\ Message.user <$> (after !! 0%nat) = Some (lit "B")
  /\ Message.text <$> (after !! 0%nat) = Some (lit "hello")
  /\ Message.createdAt <$> (after !! 0%nat) = Some (lit "t2").
Proof.
  apply (messageUpdated_whole_record distinctState msgHello [] 0%nat msgHi);
    reflexivity.
Defined.

(** *** messageDeleted *)

(** With pairwise distinct identifiers, filtering on an identifier of the
    collection takes out one entry and keeps the entries around it. *)
Lemma filter_NoDup_present (i : jsstring) (l : list Message.t) :
  NoDup (ids l) -> i ∈ ids l ->
  exists l1 x l2,
    l = l1 ++ x :: l2 /\ Message.id x = i
    /\ filter (fun msg => Message.id msg <> i) l = l1 ++ l2.
Proof.
  intros Hnd Hin. unfold ids in Hin.
  apply list_elem_of_fmap in Hin as (x & -> & Hx).
  apply list_elem_of_split in Hx as (l1 & l2 & ->).
  exists l1, x, l2. split; [done |]. split; [done |].
  unfold ids in Hnd. rewrite fmap_app, fmap_cons in Hnd.
  apply NoDup_app in Hnd as (_ & Hl1 & Hnd).
  apply NoDup_cons in Hnd as [Hl2 _].
  rewrite filter_app, filter_cons_False by (by intros H; apply H).
  rewrite (filter_absent _ l2) by done.
  rewrite filter_absent; [done |].
  intros H. apply (Hl1 _ H). apply list_elem_of_here.
Qed.

(** C2, as stated, fails: in a collection that holds the identifier ["1"]
    twice (three [messagePosted] events lead to it from the first render),
    a successful [messageDeleted] event for ["1"] removes both entries,
    not exactly one. *)
Lemma messageDeleted_not_exactly_one :
  let posted m st := (run (messagePosted_next (postedEvent m)) [] st).1 in
  let after := messages (run (messageDeleted_next (deletedEvent (lit "1") true))
                           [] duplicateState).1 in
  posted msgHi (posted msgYo (posted msgHi (initialState (lit "A"))))
    = duplicateState
  /\ lit "1" ∈ ids (messages duplicateState)
  /\ after = [msgYo]
  /\ ~ (length after + 1 = length (messages duplicateState))%nat.
Proof.
  split; [reflexivity |].
  split; [apply list_elem_of_here |]. split; [reflexivity |].
  simpl. discriminate.
Qed.

(** C2, amended: a successful [messageDeleted] event removes every entry
    whose identifier matches and nothing else, the remaining entries keep
    their order; when the identifiers of the collection are pairwise
    distinct and the identifier is present this is exactly one entry.  An
    event with [success = false] leaves the state as it was. *)
Theorem messageDeleted_removes_matching (s : AppState) (i : jsstring)
    (net : list FetchResult) :
  let after := messages (run (messageDeleted_next (deletedEvent i true)) net s).1 in
  (forall msg : Message.t,
     msg ∈ after <-> msg ∈ messages s /\ Message.id msg <> i)
  /\ sublist after (messages s)
  /\ (length after + countId i (messages s) = length (messages s))%nat
  /\ (NoDup (ids (messages s)) -> i ∈ ids (messages s) ->
      (length after + 1 = length (messages s))%nat
      /\ exists l1 x l2,
           messages s = l1 ++ x :: l2 /\ Message.id x = i /\ after = l1 ++ l2)
  /\ (run (messageDeleted_next (deletedEvent i false)) net s).1 = s.
Proof.
  rewrite run_messageDeleted_success, run_messageDeleted_failure. simpl.
  split; [| split; [| split; [| split; [| done]]]].
  - intros msg. rewrite list_elem_of_filter. tauto.
  - apply sublist_filter.
  - apply filter_length_countId.
  - intros Hnd Hin.
    destruct (filter_NoDup_present i (messages s) Hnd Hin)
      as (l1 & x & l2 & Hs & Hx & Hf).
    split; [| by exists l1, x, l2].
    rewrite Hf, Hs, !length_app. simpl. lia.
Qed.

Lemma messageDeleted_removes_matching_witness :
  let after := messages (run (messageDeleted_next (deletedEvent (lit "1") true))
                           [] distinctState).1 in
  (length after + 1 = length (messages distinctState))%nat
  /\ exists l1 x l2,
       messages distinctState = l1 ++ x :: l2
       /\ Message.id x = lit "1" /\ after = l1 ++ l2.
Proof.
  apply (messageDeleted_removes_matching distinctState (lit "1") []).
  - unfold distinctState, ids. simpl.
    apply NoDup_cons. split.
    + intros H. apply list_elem_of_singleton in H. discriminate H.
    + apply NoDup_singleton.
  - apply list_elem_of_here.
Defined.

(** C8: a successful [messageDeleted] event is idempotent: handling it a
    second time gives the state reached after the first time; and for an
    identifier that is not in the collection (already removed, say by a
    refetch) it changes nothing. *)
Theorem messageDeleted_idempotent (s : AppState) (i : jsstring)
    (net net' : list FetchResult) :
  let once := (run (messageDeleted_next (deletedEvent i true)) net s).1 in
  let twice := (run (messageDeleted_next (deletedEvent i true)) net' once).1 in
  twice = once
  /\ messages twice = messages once
  /\ (i ∉ ids (messages s) -> once = s /\ messages once = messages s).
Proof.
  rewrite !run_messageDeleted_success. simpl.
  assert (forall st, i ∉ ids (messages st) ->
            setMessages (filter (fun msg => Message.id msg <> i)) st = st)
    as Hfix.
  { intros st Hst. apply setMessages_fixed. by apply filter_absent. }
  split; [| split].
  - apply Hfix. simpl. apply filter_no_match.
  - apply filter_absent, filter_no_match.
  - intros Hout. split; [by apply Hfix | by apply filter_absent].
Qed.

Lemma messageDeleted_idempotent_witness :
  (run (messageDeleted_next (deletedEvent (lit "3") true)) [] distinctState).1
    = distinctState
  /\ messages
       (run (messageDeleted_next (deletedEvent (lit "3") true)) []
          distinctState).1
     = messages distinctState.
Proof.
  apply (messageDeleted_idempotent distinctState (lit "3") [] []).
  unfold distinctState, ids. simpl. intros H.
  apply elem_of_cons in H as [H | H]; [discriminate H |].
  apply list_elem_of_singleton in H. discriminate H.
Defined.

(** *** Collections with repeated identifiers *)

(** C9: the [messagePosted] handler does not look for the identifier, so
    two events with the same message leave two entries with one
    identifier.  On any collection the [messageUpdated] handler turns
    every entry whose identifier matches into the message of the event,
    and a successful [messageDeleted] event leaves no entry with the
    identifier: as many entries are replaced, or removed, as carry the
    identifier (two in [duplicateState]). *)
Theorem repeated_identifiers_all_matching (s : AppState) (m : Message.t)
    (i : jsstring) (net : list FetchResult) :
  (let s1 := (run (messagePosted_next (postedEvent m)) net s).1 in
   let s2 := (run (messagePosted_next (postedEvent m)) net s1).1 in
   messages s2 = messages s ++ [m; m] /\ ~ NoDup (ids (messages s2)))
  /\ (let after := messages (run (messageUpdated_next (updatedEvent m)) net s).1 in
      Forall (fun x => Message.id x = Message.id m -> x = m) after
      /\ length (filter (fun x => x = m) after)
         = countId (Message.id m) (messages s))
  /\ (let after := messages (run (messageDeleted_next (deletedEvent i true)) net s).1 in
      (i ∉ ids after)
      /\ (length after + countId i (messages s) = length (messages s))%nat)
  /\ countId (lit "1") (messages duplicateState) = 2%nat
  /\ messages (run (messageUpdated_next (updatedEvent msgHello)) net
                 duplicateState).1 = [msgHello; msgYo; msgHello]
  /\ messages (run (messageDeleted_next (deletedEvent (lit "1") true)) net
                 duplicateState).1 = [msgYo].
Proof.
  rewrite !run_messagePosted, !run_messageUpdated, !run_messageDeleted_success.
  simpl. split; [| split; [| split; [| done]]].
  - rewrite <- app_assoc. split; [done |].
    unfold ids. rewrite fmap_app. simpl. intros Hnd.
    apply NoDup_app in Hnd as (_ & _ & Hnd).
    apply NoDup_cons in Hnd as [Hnd _]. apply Hnd, list_elem_of_here.
  - split.
    + apply Forall_fmap, Forall_forall. intros x _. simpl.
      by destruct (decide (Message.id x = Message.id m)).
    + unfold countId. induction (messages s) as [|x l IH]; [done |].
      rewrite fmap_cons. destruct (decide (Message.id x = Message.id m)) as [He|Hne].
      * rewrite !filter_cons_True by done. simpl. by rewrite IH.
      * rewrite (filter_cons_False _ x) by (by intros ->).
        rewrite (filter_cons_False _ x) by done. done.
  - split; [apply filter_no_match | apply filter_length_countId].
Qed.

(** ** More on the sync controller *)

Section more_lists.
Implicit Types (l : list Message.t) (m : Message.t) (i : jsstring).

(** Replacing by identifier keeps the identifiers. *)
Lemma replace_ids m l :
  ids ((fun msg => if decide (Message.id msg = Message.id m) then m else msg)
         <$> l) = ids l.
Proof.
  unfold ids. rewrite <- list_fmap_compose. apply list_fmap_ext.
  intros _ x _. simpl. by destruct (decide (Message.id x = Message.id m)).
Qed.

(** Filtering out an identifier after replacing by it forgets the
    replacement. *)
Lemma filter_replace_same m l :
  filter (fun msg => Message.id msg <> Message.id m)
    ((fun msg => if decide (Message.id msg = Message.id m) then m else msg)
       <$> l)
  = filter (fun msg => Message.id msg <> Message.id m) l.
Proof.
  induction l as [|x l IH]; [done |]. rewrite fmap_cons.
  destruct (decide (Message.id x = Message.id m)) as [He|Hne].
  - rewrite !filter_cons_False by (by intros H; apply H). done.
  - rewrite !filter_cons_True by done. by rewrite IH.
Qed.

(** Filtering and replacing on different identifiers commute. *)
Lemma filter_replace_other m i l :
  Message.id m <> i ->
  filter (fun msg => Message.id msg <> i)
    ((fun msg => if decide (Message.id msg = Message.id m) then m else msg)
       <$> l)
  = (fun msg => if decide (Message.id msg = Message.id m) then m else msg)
      <$> filter (fun msg => Message.id msg <> i) l.
Proof.
  intros Hmi. induction l as [|x l IH]; [done |]. rewrite fmap_cons.
  destruct (decide (Message.id x = Message.id m)) as [He|Hne].
  - rewrite !filter_cons_True by congruence.
    rewrite fmap_cons, decide_True by done. by rewrite IH.
  - destruct (decide (Message.id x = i)) as [Hi|Hi].
    + rewrite !filter_cons_False by (by intros H; apply H). done.
    + rewrite !filter_cons_True by done.
      rewrite fmap_cons, decide_False by done. by rewrite IH.
Qed.
End more_lists.

(** X1: an event that carries no payload (a [null] result, no [data], or a
    [null] field) is ignored by each of the three handlers: the state is
    the same and no toast is shown. *)
Theorem events_without_payload_ignored
    (dp : option (Result.t PostedData.t))
    (du : option (Result.t UpdatedData.t))
    (dd : option (Result.t DeletedData.t))
    (net : list FetchResult) (s : AppState) :
  (dp ≫= Result.data) ≫= PostedData.messagePosted = None ->
  (du ≫= Result.data) ≫= UpdatedData.messageUpdated = None ->
  (dd ≫= Result.data) ≫= DeletedData.messageDeleted = None ->
  run (messagePosted_next dp) net s = (s, [])
  /\ run (messageUpdated_next du) net s = (s, [])
  /\ run (messageDeleted_next dd) net s = (s, []).
Proof.
  intros Hp Hu Hd.
  unfold messagePosted_next, messageUpdated_next, messageDeleted_next.
  by rewrite Hp, Hu, Hd.
Qed.

Lemma events_without_payload_ignored_witness :
  run (messagePosted_next None) [] distinctState = (distinctState, [])
  /\ run (messageUpdated_next (Some (Result.mk None))) [] distinctState
     = (distinctState, [])
  /\ run (messageDeleted_next (Some (Result.mk (Some (DeletedData.mk None)))))
       [] distinctState
     = (distinctState, []).
Proof.
  apply (events_without_payload_ignored None (Some (Result.mk None))
           (Some (Result.mk (Some (DeletedData.mk None)))) [] distinctState);
    reflexivity.
Defined.

(** X2: the [messageUpdated] handler keeps the sequence of identifiers of
    the collection, whatever the message of the event: no entry moves, and
    the identifiers stay pairwise distinct when they were. *)
Theorem messageUpdated_keeps_ids (s : AppState) (m : Message.t)
    (net : list FetchResult) :
  let after := messages (run (messageUpdated_next (updatedEvent m)) net s).1 in
  ids after = ids (messages s)
  /\ (NoDup (ids after) <-> NoDup (ids (messages s))).
Proof.
  rewrite run_messageUpdated. simpl.
  rewrite replace_ids. split; done.
Qed.

(** X3: of two [messageUpdated] events for one identifier the later one
    wins: the collection is the one the later event alone gives. *)
Theorem messageUpdated_last_wins (s : AppState) (m m' : Message.t)
    (net : list FetchResult) :
  Message.id m = Message.id m' ->
  let first := (run (messageUpdated_next (updatedEvent m)) net s).1 in
  messages (run (messageUpdated_next (updatedEvent m')) net first).1
  = messages (run (messageUpdated_next (updatedEvent m')) net s).1.
Proof.
  intros He. rewrite !run_messageUpdated. simpl.
  rewrite <- list_fmap_compose. apply list_fmap_ext.
  intros _ x _. simpl.
  destruct (decide (Message.id x = Message.id m)) as [Hx|Hx].
  - rewrite decide_True by done. by rewrite decide_True by congruence.
  - done.
Qed.

Lemma messageUpdated_last_wins_witness :
  let first := (run (messageUpdated_next (updatedEvent msgHello)) []
                  duplicateState).1 in
  messages (run (messageUpdated_next (updatedEvent msgHi)) [] first).1
  = messages (run (messageUpdated_next (updatedEvent msgHi)) []
                duplicateState).1.
Proof.
  apply (messageUpdated_last_wins duplicateState msgHello msgHi []).
  reflexivity.
Defined.

(** X4: a successful [messageDeleted] event for the identifier of a
    message undoes an earlier [messagePosted] or [messageUpdated] event
    for that message: the collection is the one the delete alone gives. *)
Theorem messageDeleted_cancels_earlier (s : AppState) (m : Message.t)
    (net : list FetchResult) :
  let deleted st :=
    messages (run (messageDeleted_next (deletedEvent (Message.id m) true))
                net st).1 in
  deleted (run (messagePosted_next (postedEvent m)) net s).1 = deleted s
  /\ deleted (run (messageUpdated_next (updatedEvent m)) net s).1 = deleted s.
Proof.
  cbv beta zeta.
  rewrite !run_messageDeleted_success, run_messagePosted, run_messageUpdated.
  simpl. split.
  - rewrite filter_app, filter_cons_False by (by intros H; apply H).
    by rewrite filter_nil, app_nil_r.
  - apply filter_replace_same.
Qed.

(** X5: events for different identifiers can be handled in either order:
    a delete for [i] commutes with an update and with a post of a message
    whose identifier is not [i]. *)
Theorem events_on_other_ids_commute (s : AppState) (m : Message.t)
    (i : jsstring) (net : list FetchResult) :
  Message.id m <> i ->
  let deleted st := (run (messageDeleted_next (deletedEvent i true)) net st).1 in
  let updated st := (run (messageUpdated_next (updatedEvent m)) net st).1 in
  let posted st := (run (messagePosted_next (postedEvent m)) net st).1 in
  deleted (updated s) = updated (deleted s)
  /\ deleted (posted s) = posted (deleted s).
Proof.
  intros Hmi. cbv beta zeta.
  rewrite !run_messageDeleted_success, !run_messageUpdated, !run_messagePosted.
  unfold setMessages. simpl. split; f_equal.
  - by apply filter_replace_other.
  - rewrite filter_app, filter_cons_True by done. by rewrite filter_nil.
Qed.

Lemma events_on_other_ids_commute_witness :
  let deleted st :=
    (run (messageDeleted_next (deletedEvent (lit "2") true)) [] st).1 in
  let updated st := (run (messageUpdated_next (updatedEvent msgHello)) [] st).1 in
  let posted st := (run (messagePosted_next (postedEvent msgHello)) [] st).1 in
  deleted (updated duplicateState) = updated (deleted duplicateState)
  /\ deleted (posted duplicateState) = posted (deleted duplicateState).
Proof.
  apply (events_on_other_ids_commute duplicateState msgHello (lit "2") []).
  discriminate.
Defined.

(** X6: pairwise distinct identifiers survive [messageUpdated] and
    successful [messageDeleted] events; they survive a [messagePosted]
    event exactly when the identifier of the new message is not yet in the
    collection. *)
Theorem distinct_ids_kept (s : AppState) (m : Message.t) (i : jsstring)
    (net : list FetchResult) :
  NoDup (ids (messages s)) ->
  NoDup (ids (messages (run (messageUpdated_next (updatedEvent m)) net s).1))
  /\ NoDup (ids (messages
                   (run (messageDeleted_next (deletedEvent i true)) net s).1))
  /\ (NoDup (ids (messages
                    (run (messagePosted_next (postedEvent m)) net s).1))
      <-> Message.id m ∉ ids (messages s)).
Proof.
  intros Hnd.
  rewrite run_messageUpdated, run_messageDeleted_success, run_messagePosted.
  simpl. split; [by rewrite replace_ids |]. split.
  - apply (sublist_NoDup _ (ids (messages s))); [done |].
    unfold ids. apply fmap_sublist, sublist_filter.
  - unfold ids. rewrite fmap_app. simpl. rewrite NoDup_app. split.
    + intros (_ & Hfresh & _) Hin. apply (Hfresh _ Hin), list_elem_of_here.
    + intros Hfresh. split; [done |]. split; [| apply NoDup_singleton].
      intros x Hx Hm. apply list_elem_of_singleton in Hm. by subst x.
Qed.

Lemma distinct_ids_kept_witness :
  NoDup (ids (messages
                (run (messageUpdated_next (updatedEvent msgHello)) []
                   distinctState).1))
  /\ NoDup (ids (messages
                   (run (messageDeleted_next (deletedEvent (lit "2") true)) []
                      distinctState).1))
  /\ (NoDup (ids (messages
                    (run (messagePosted_next (postedEvent msgHello)) []
                       distinctState).1))
      <-> Message.id msgHello ∉ ids (messages distinctState)).
Proof.
  apply (distinct_ids_kept distinctState msgHello (lit "2") []).
  unfold distinctState, ids. simpl. apply NoDup_cons. split.
  - intros H. apply list_elem_of_singleton in H. discriminate H.
  - apply NoDup_singleton.
Defined.

(** X7: the toast does not depend on whether anything changed: for an
    identifier that is not in the collection a [messageUpdated] event and
    a successful [messageDeleted] event leave the state as it was and
    still show their toast. *)
Theorem toast_without_change (s : AppState) (m : Message.t) (i : jsstring)
    (net : list FetchResult) :
  Message.id m ∉ ids (messages s) ->
  i ∉ ids (messages s) ->
  run (messageUpdated_next (updatedEvent m)) net s
    = (s, [Toast (lit "Message updated by " ++ Message.user m)])
  /\ run (messageDeleted_next (deletedEvent i true)) net s
     = (s, [Toast (lit "Message deleted")]).
Proof.
  intros Hm Hi. rewrite run_messageUpdated, run_messageDeleted_success.
  split; f_equal; apply setMessages_fixed.
  - by apply replace_absent.
  - by apply filter_absent.
Qed.

Lemma toast_without_change_witness :
  run (messageUpdated_next (updatedEvent msgYo)) [] (initialState (lit "A"))
    = (initialState (lit "A"),
       [Toast (lit "Message updated by " ++ Message.user msgYo)])
  /\ run (messageDeleted_next (deletedEvent (lit "7") true)) []
       (initialState (lit "A"))
     = (initialState (lit "A"), [Toast (lit "Message deleted")]).
Proof.
  apply (toast_without_change (initialState (lit "A")) msgYo (lit "7") []);
    apply not_elem_of_nil.
Defined.

(** *** Sequences of inputs *)

Lemma replay_app (es1 es2 : list Incoming) (s : AppState) :
  replay (es1 ++ es2) s = replay es2 (replay es1 s).
Proof. revert s. induction es1 as [|e es1 IH]; intros s; simpl; auto. Qed.

(** An input changes [messages] at most. *)
Lemma deliver_frame (e : Incoming) (s : AppState) :
  (deliver e s).1 = setMessages (const (messages (deliver e s).1)) s.
Proof.
  destruct s as [l u t ei et]. destruct e as [data|data|data|r]; simpl.
  - unfold messagePosted_next.
    by destruct ((data ≫= Result.data) ≫= PostedData.messagePosted).
  - unfold messageUpdated_next.
    by destruct ((data ≫= Result.data) ≫= UpdatedData.messageUpdated).
  - unfold messageDeleted_next.
    destruct ((data ≫= Result.data) ≫= DeletedData.messageDeleted)
      as [[i [|]]|]; done.
  - destruct r as [|json]; [done |]. simpl.
    by destruct ((json ≫= Result.data) ≫= QueryData.messages).
Qed.

Lemma replay_frame (es : list Incoming) (s : AppState) :
  replay es s = setMessages (const (messages (replay es s))) s.
Proof.
  revert s. induction es as [|e es IH]; intros s; simpl.
  - by destruct s.
  - rewrite IH at 1.
    generalize (messages (replay es (deliver e s).1)). intros l.
    by rewrite (deliver_frame e s).
Qed.

(** The messages of the collection after an input were there before or
    came with the input. *)
Lemma deliver_provenance (e : Incoming) (s : AppState) (msg : Message.t) :
  msg ∈ messages (deliver e s).1 -> msg ∈ messages s \/ msg ∈ carried e.
Proof.
  destruct e as [data|data|data|r]; simpl.
  - unfold messagePosted_next.
    destruct ((data ≫= Result.data) ≫= PostedData.messagePosted) as [m|];
      simpl; [| auto].
    rewrite elem_of_app. tauto.
  - unfold messageUpdated_next.
    destruct ((data ≫= Result.data) ≫= UpdatedData.messageUpdated) as [m|];
      simpl; [| auto].
    rewrite list_elem_of_fmap. intros (x & -> & Hx).
    destruct (decide (Message.id x = Message.id m)); [right | by left].
    apply list_elem_of_here.
  - unfold messageDeleted_next.
    destruct ((data ≫= Result.data) ≫= DeletedData.messageDeleted)
      as [[i [|]]|]; simpl; [| auto | auto].
    rewrite list_elem_of_filter. tauto.
  - destruct r as [|json]; simpl; [auto |].
    destruct ((json ≫= Result.data) ≫= QueryData.messages) as [l|];
      simpl; auto.
Qed.

(** After a response that carries a list the inputs before it do not
    matter. *)
Lemma replay_refetch (es1 es2 : list Incoming) (r : FetchResult)
    (l : list Message.t) (s : AppState) :
  listOf r = Some l ->
  replay (es1 ++ Refetched r :: es2) s = replay es2 (setMessages (const l) s).
Proof.
  intros Hr. rewrite replay_app. simpl. f_equal.
  rewrite (replay_frame es1 s). destruct r as [|json]; [done |].
  simpl in *. by rewrite Hr.
Qed.

(** X8: events and refetch answers never touch what the user types: after
    any sequence of inputs the handle, the text of the input field and the
    edit in progress are the ones before. *)
Theorem inputs_keep_user_fields (es : list Incoming) (s : AppState) :
  user (replay es s) = user s
  /\ text (replay es s) = text s
  /\ editingId (replay es s) = editingId s
  /\ editingText (replay es s) = editingText s.
Proof. rewrite replay_frame. done. Qed.

(** X9: the component makes up no message: after any sequence of inputs
    every entry of the collection was in the collection at the start or
    was carried by one of the inputs (a posted or updated event, or a
    response to [fetchMessages]). *)
Theorem messages_come_from_inputs (es : list Incoming) (s : AppState)
    (msg : Message.t) :
  msg ∈ messages (replay es s) ->
  msg ∈ messages s \/ exists e, e ∈ es /\ msg ∈ carried e.
Proof.
  revert s. induction es as [|e es IH]; intros s; simpl; [auto |].
  intros H. apply IH in H as [H | (e' & He' & H)].
  - apply deliver_provenance in H as [H | H]; [by left | right].
    exists e. split; [apply list_elem_of_here | done].
  - right. exists e'. split; [by apply list_elem_of_further | done].
Qed.

Lemma messages_come_from_inputs_witness :
  msgHello ∈ messages (initialState (lit "A"))
  \/ exists e,
       e ∈ [Posted (postedEvent msgHi); Updated (updatedEvent msgHello)]
       /\ msgHello ∈ carried e.
Proof.
  apply (messages_come_from_inputs
           [Posted (postedEvent msgHi); Updated (updatedEvent msgHello)]
           (initialState (lit "A")) msgHello).
  apply list_elem_of_here.
Defined.

(** X10: a response to [fetchMessages] that carries a list wipes out the
    history: whatever inputs came before it, the state evolves from then
    on as if the collection had been that list from the start. *)
Theorem refetch_forgets_history (es1 es2 : list Incoming) (r : FetchResult)
    (l : list Message.t) (s : AppState) :
  listOf r = Some l ->
  replay (es1 ++ Refetched r :: es2) s = replay es2 (setMessages (const l) s).
Proof. apply replay_refetch. Qed.

Lemma refetch_forgets_history_witness :
  replay ([Posted (postedEvent msgHi); Posted (postedEvent msgHi)]
            ++ Refetched (messagesResponse [msgYo])
            :: [Updated (updatedEvent msgHello)])
    (initialState (lit "A"))
  = replay [Updated (updatedEvent msgHello)]
      (setMessages (const [msgYo]) (initialState (lit "A"))).
Proof.
  apply (refetch_forgets_history
           [Posted (postedEvent msgHi); Posted (postedEvent msgHi)]
           [Updated (updatedEvent msgHello)]
           (messagesResponse [msgYo]) [msgYo] (initialState (lit "A"))).
  reflexivity.
Defined.

(** ** More on the mutation dispatcher *)

(** The answer to [fetchMessages], by what the response carries. *)
Lemma run_fetchMessages_listOf (r : FetchResult) (net : list FetchResult)
    (s : AppState) :
  run fetchMessages (r :: net) s
  = (match listOf r with
     | Some l => setMessages (const l) s
     | None => s
     end, [NetworkCall QueryMessages]).
Proof.
  destruct r as [|json]; [done |]. simpl.
  by destruct ((json ≫= Result.data) ≫= QueryData.messages).
Qed.

(** X11: [sendMessage] with a text that is not blank, when both requests
    are answered and the second answer carries a list: the text is posted
    as typed (not trimmed) under the current handle, then the list is
    queried; the input field is emptied and the collection is the list of
    the answer. *)
Theorem sendMessage_success (s : AppState)
    (json : option (Result.t QueryData.t)) (r : FetchResult)
    (l : list Message.t) (net : list FetchResult) :
  ~ blank (text s) ->
  listOf r = Some l ->
  run (sendMessage s) (Resolved json :: r :: net) s
  = (setMessages (const l) (setText [] s),
     [NetworkCall (PostMessage (user s) (text s)); NetworkCall QueryMessages]).
Proof.
  intros Hs Hr. unfold sendMessage. rewrite truthy_trim_not_blank by done.
  cbn [negb run]. rewrite run_fetchMessages_listOf, Hr. done.
Qed.

Lemma sendMessage_success_witness :
  run (sendMessage editingState)
    [Resolved None; messagesResponse [msgYo]] editingState
  = (setMessages (const [msgYo]) (setText [] editingState),
     [NetworkCall (PostMessage (lit "A") (lit " hey "));
      NetworkCall QueryMessages]).
Proof.
  apply (sendMessage_success editingState None (messagesResponse [msgYo])
           [msgYo] []).
  - unfold blank. intros H. inversion H as [|c r Hc Hr]; subst.
    inversion Hr as [|c' r' Hc' Hr']; subst. discriminate Hc'.
  - reflexivity.
Defined.

(** X12: when the post request of [sendMessage] is rejected the body stops
    there: the request was sent, but the input field keeps its text and
    the list is not queried.  When the post is answered and the query
    brings no list, the input field is emptied all the same and the
    collection stays. *)
Theorem sendMessage_failures (s : AppState)
    (json : option (Result.t QueryData.t)) (r : FetchResult)
    (net : list FetchResult) :
  ~ blank (text s) ->
  listOf r = None ->
  run (sendMessage s) (Rejected :: net) s
    = (s, [NetworkCall (PostMessage (user s) (text s))])
  /\ run (sendMessage s) (Resolved json :: r :: net) s
     = (setText [] s,
        [NetworkCall (PostMessage (user s) (text s));
         NetworkCall QueryMessages]).
Proof.
  intros Hs Hr. unfold sendMessage. rewrite truthy_trim_not_blank by done.
  cbn [negb run]. rewrite run_fetchMessages_listOf, Hr. done.
Qed.

Lemma sendMessage_failures_witness :
  run (sendMessage editingState) [Rejected] editingState
    = (editingState, [NetworkCall (PostMessage (lit "A") (lit " hey "))])
  /\ run (sendMessage editingState) [Resolved None; Rejected] editingState
     = (setText [] editingState,
        [NetworkCall (PostMessage (lit "A") (lit " hey "));
         NetworkCall QueryMessages]).
Proof.
  apply (sendMessage_failures editingState None Rejected []).
  - unfold blank. intros H. inversion H as [|c r Hc Hr]; subst.
    inversion Hr as [|c' r' Hc' Hr']; subst. discriminate Hc'.
  - reflexivity.
Defined.

(** X13: the guards are exact: [sendMessage] (and [saveEdit]) has no
    observable effect if and only if the text (the edited text) is blank;
    any other text is sent. *)
Theorem guards_exact (s : AppState) (id : jsstring) (net : list FetchResult) :
  ((run (sendMessage s) net s).2 = [] <-> blank (text s))
  /\ ((run (saveEdit id s) net s).2 = [] <-> blank (editingText s)).
Proof.
  split; split.
  - intros H. destruct (decide (blank (text s))) as [|Hn]; [done |].
    destruct (run_sendMessage_not_blank s net Hn) as [es Hes]. congruence.
  - intros H. by rewrite run_sendMessage_blank.
  - intros H. destruct (decide (blank (editingText s))) as [|Hn]; [done |].
    unfold saveEdit in H. rewrite truthy_trim_not_blank in H by done.
    cbn [negb] in H.
    destruct (run_Fetch_sends (UpdateMessage id (editingText s))
                (fun _ => SetState (setEditingId None)
                            (SetState (setEditingText []) fetchMessages))
                net s) as [es Hes].
    congruence.
  - intros H. by rewrite run_saveEdit_blank.
Qed.

(** X14: [saveEdit] with an edited text that is not blank, when both
    requests are answered and the second answer carries a list: the text
    is sent as typed for the given identifier, then the list is queried;
    the editor is closed, its text emptied, and the collection is the list
    of the answer. *)
Theorem saveEdit_success (id : jsstring) (s : AppState)
    (json : option (Result.t QueryData.t)) (r : FetchResult)
    (l : list Message.t) (net : list FetchResult) :
  ~ blank (editingText s) ->
  listOf r = Some l ->
  run (saveEdit id s) (Resolved json :: r :: net) s
  = (setMessages (const l) (setEditingText [] (setEditingId None s)),
     [NetworkCall (UpdateMessage id (editingText s));
      NetworkCall QueryMessages]).
Proof.
  intros Hs Hr. unfold saveEdit. rewrite truthy_trim_not_blank by done.
  cbn [negb run]. rewrite run_fetchMessages_listOf, Hr. done.
Qed.

Lemma saveEdit_success_witness :
  run (saveEdit (lit "1") editingState)
    [Resolved None; messagesResponse [msgYo]] editingState
  = (setMessages (const [msgYo])
       (setEditingText [] (setEditingId None editingState)),
     [NetworkCall (UpdateMessage (lit "1") (lit "hi!"));
      NetworkCall QueryMessages]).
Proof.
  apply (saveEdit_success (lit "1") editingState None
           (messagesResponse [msgYo]) [msgYo] []).
  - unfold blank. intros H. inversion H as [|c r Hc Hr]; subst.
    discriminate Hc.
  - reflexivity.
Defined.

(** X15: when the update request of [saveEdit] is rejected, or not
    answered, the editor stays open with its text: the request was sent
    and the state is the one before. *)
Theorem saveEdit_rejected (id : jsstring) (s : AppState)
    (net : list FetchResult) :
  ~ blank (editingText s) ->
  run (saveEdit id s) (Rejected :: net) s
    = (s, [NetworkCall (UpdateMessage id (editingText s))])
  /\ run (saveEdit id s) [] s
     = (s, [NetworkCall (UpdateMessage id (editingText s))]).
Proof.
  intros Hs. unfold saveEdit. rewrite truthy_trim_not_blank by done.
  done.
Qed.

Lemma saveEdit_rejected_witness :
  run (saveEdit (lit "1") editingState) [Rejected] editingState
    = (editingState, [NetworkCall (UpdateMessage (lit "1") (lit "hi!"))])
  /\ run (saveEdit (lit "1") editingState) [] editingState
     = (editingState, [NetworkCall (UpdateMessage (lit "1") (lit "hi!"))]).
Proof.
  apply (saveEdit_rejected (lit "1") editingState []).
  unfold blank. intros H. inversion H as [|c r Hc Hr]; subst.
  discriminate Hc.
Defined.

(** X16: [deleteMessage] has no guard and looks neither at the collection
    nor at the answer: for every identifier it sends the delete request;
    when that is answered, whatever the body says, it queries the list,
    and the state changes only by the list of that answer (the edit in
    progress and the input field stay).  A rejected delete request ends
    the body. *)
Theorem deleteMessage_unguarded (id : jsstring) (s : AppState)
    (json : option (Result.t QueryData.t)) (r : FetchResult)
    (net : list FetchResult) :
  run (deleteMessage id) (Resolved json :: r :: net) s
    = (match listOf r with
       | Some l => setMessages (const l) s
       | None => s
       end,
       [NetworkCall (DeleteMessage id); NetworkCall QueryMessages])
  /\ run (deleteMessage id) (Rejected :: net) s
     = (s, [NetworkCall (DeleteMessage id)]).
Proof.
  unfold deleteMessage. cbn [run].
  rewrite run_fetchMessages_listOf. done.
Qed.

(** What a body of the shape "request, state updates that keep
    [messages], [fetchMessages]" can do to the collection. *)
Lemma run_mutation_then_fetch (req : Request) (upd : AppState -> AppState)
    (net : list FetchResult) (s : AppState) :
  (forall st, messages (upd st) = messages st) ->
  let out := run (Fetch req (fun _ => SetState upd fetchMessages)) net s in
  (messages out.1 = messages s
   \/ exists r, net !! 1%nat = Some r /\ listOf r = Some (messages out.1))
  /\ (length out.2 <= 2)%nat.
Proof.
  intros Hupd. destruct net as [|[|json] net]; [simpl; auto.. |].
  cbn [run]. destruct net as [|r net].
  - simpl. rewrite Hupd. auto.
  - rewrite run_fetchMessages_listOf. simpl.
    destruct (listOf r) as [l|] eqn:Hr; simpl.
    + split; [right | lia]. by exists r.
    + rewrite Hupd. auto.
Qed.

(** X17: no dispatcher changes the collection by itself: after
    [sendMessage], [saveEdit] or [deleteMessage], whatever the network
    answers, the collection is the one before or the list carried by the
    answer to the query; the new text is never appended, the edited entry
    never patched and the deleted entry never removed locally.  At most
    two requests are sent. *)
Theorem no_local_patch (s : AppState) (id : jsstring)
    (net : list FetchResult) (c : Cmd) :
  c = sendMessage s \/ c = saveEdit id s \/ c = deleteMessage id ->
  (messages (run c net s).1 = messages s
   \/ exists r, net !! 1%nat = Some r
        /\ listOf r = Some (messages (run c net s).1))
  /\ (length (run c net s).2 <= 2)%nat.
Proof.
  intros [-> | [-> | ->]].
  - unfold sendMessage. destruct (negb (truthy (trim (text s)))).
    + simpl. split; [by left | lia].
    + by apply run_mutation_then_fetch.
  - unfold saveEdit. destruct (negb (truthy (trim (editingText s)))).
    + simpl. split; [by left | lia].
    + apply (run_mutation_then_fetch _
               (fun st => setEditingText [] (setEditingId None st))).
      done.
  - apply (run_mutation_then_fetch _ (fun st => st)). done.
Qed.

Lemma no_local_patch_witness :
  (messages (run (sendMessage editingState) [Resolved None; Rejected]
               editingState).1 = messages editingState
   \/ exists r, [Resolved None; Rejected] !! 1%nat = Some r
        /\ listOf r
           = Some (messages (run (sendMessage editingState)
                               [Resolved None; Rejected] editingState).1))
  /\ (length (run (sendMessage editingState) [Resolved None; Rejected]
                editingState).2 <= 2)%nat.
Proof.
  apply (no_local_patch editingState (lit "1") [Resolved None; Rejected]
           (sendMessage editingState)).
  left. reflexivity.
Defined.

(** ** The rendered list and its controls *)






(** X20: whether a message can be deleted (or edited) from the page is
    decided by comparing its author with the handle field, which the user
    can set to anything: the Delete and Edit buttons of a row exist
    exactly when the author equals the handle, and after typing the author
    of any message into the handle field its Delete button is there and
    sends the delete request for that message. *)
Theorem ownership_by_handle (s : AppState) (n : nat) (m : Message.t) :
  messages s !! n = Some m ->
  (is_Some (dispatch (ClickDelete n) s) <-> Message.user m = user s)
  /\ (is_Some (dispatch (ClickEdit n) s) <-> Message.user m = user s)
  /\ (let s' := (run (SetState (setUser (Message.user m)) Return) [] s).1 in
      dispatch (ChangeUser (Message.user m)) s
        = Some (SetState (setUser (Message.user m)) Return)
      /\ dispatch (ClickDelete n) s' = Some (deleteMessage (Message.id m))).
Proof.
  intros Hn. unfold dispatch. simpl. rewrite Hn. simpl.
  rewrite (bool_decide_eq_true_2 (Message.user m = Message.user m)) by done.
  case_bool_decide as He.
  - do 2 (split; [by split |]). done.
  - do 2 (split; [split; [by intros [? ?] | done] |]). done.
Qed.

Lemma ownership_by_handle_witness :
  dispatch (ClickDelete 1%nat) distinctState = None
  /\ dispatch (ClickDelete 1%nat) (setUser (lit "C") distinctState)
     = Some (deleteMessage (lit "2")).
Proof.
  destruct (ownership_by_handle distinctState 1%nat msgYo)
    as ([Hdel _] & _ & _ & Hafter); [reflexivity |].
  split; [| exact Hafter].
  destruct (dispatch (ClickDelete 1%nat) distinctState) eqn:Hd; [| reflexivity].
  assert (is_Some (Some c)) as Hsome by (by exists c).
  discriminate (Hdel Hsome).
Defined.

(** X21: Edit followed by Save with the text left as it is: the Edit
    button of an own message opens the editor of that row on the stored
    text, Save is then available, and it sends the stored text back for
    the identifier of the message, unless that text is blank, in which
    case Save does nothing and the editor stays open. *)
Theorem edit_then_save (s : AppState) (n : nat) (m : Message.t)
    (net : list FetchResult) :
  messages s !! n = Some m ->
  Message.user m = user s ->
  exists c s1,
    dispatch (ClickEdit n) s = Some c
    /\ (run c [] s).1 = s1
    /\ body <$> render s1 !! n = Some (Editor (Message.text m))
    /\ dispatch (ClickSave n) s1 = Some (saveEdit (Message.id m) s1)
    /\ (blank (Message.text m) ->
        run (saveEdit (Message.id m) s1) net s1 = (s1, []))
    /\ (~ blank (Message.text m) ->
        exists es,
          (run (saveEdit (Message.id m) s1) net s1).2
          = NetworkCall (UpdateMessage (Message.id m) (Message.text m)) :: es).
Proof.
  intros Hn Hown. unfold dispatch. rewrite Hn. simpl.
  rewrite bool_decide_eq_true_2 by done.
  eexists _, _. split; [reflexivity |]. split; [reflexivity |]. simpl.
  unfold render. simpl. rewrite list_lookup_fmap, Hn. simpl.
  unfold isEditor, renderRow. simpl. rewrite decide_True by done.
  split; [done |]. split; [done |]. split.
  - intros Hb. by apply run_saveEdit_blank.
  - intros Hb. unfold saveEdit. simpl.
    rewrite truthy_trim_not_blank by done. apply run_Fetch_sends.
Qed.

Lemma edit_then_save_witness :
  exists c s1,
    dispatch (ClickEdit 0%nat) distinctState = Some c
    /\ (run c [] distinctState).1 = s1
    /\ body <$> render s1 !! 0%nat = Some (Editor (Message.text msgHi))
    /\ dispatch (ClickSave 0%nat) s1 = Some (saveEdit (Message.id msgHi) s1)
    /\ (blank (Message.text msgHi) ->
        run (saveEdit (Message.id msgHi) s1) [] s1 = (s1, []))
    /\ (~ blank (Message.text msgHi) ->
        exists es,
          (run (saveEdit (Message.id msgHi) s1) [] s1).2
          = NetworkCall (UpdateMessage (Message.id msgHi) (Message.text msgHi))
              :: es).
Proof.
  apply (edit_then_save distinctState 0%nat msgHi []); reflexivity.
Defined.

(** ** The two update paths together *)

(** X22: the refetch and the [messagePosted] subscription report a new
    message independently, and the result depends on which comes first:
    when the event arrives before the response that already lists the
    message, the message is shown once; when it arrives after it, the
    message is in the collection twice, and stays so until the next
    response that carries a list. *)
Theorem post_event_after_refetch_duplicates (s : AppState)
    (l : list Message.t) (m : Message.t) (r : FetchResult)
    (l' : list Message.t) :
  listOf r = Some l' ->
  let response := Refetched (messagesResponse (l ++ [m])) in
  let event := Posted (postedEvent m) in
  messages (replay [event; response] s) = l ++ [m]
  /\ messages (replay [response; event] s) = l ++ [m; m]
  /\ (2 <= countId (Message.id m) (messages (replay [response; event] s)))%nat
  /\ messages (replay [response; event; Refetched r] s) = l'.
Proof.
  intros Hr. cbv zeta. split; [done |]. split.
  { simpl. by rewrite <- app_assoc. }
  split.
  - simpl. unfold countId. rewrite !filter_app.
    rewrite !filter_cons_True by done. rewrite !length_app. simpl. lia.
  - change [Refetched (messagesResponse (l ++ [m])); Posted (postedEvent m);
            Refetched r]
      with ([Refetched (messagesResponse (l ++ [m])); Posted (postedEvent m)]
              ++ Refetched r :: []).
    by rewrite (replay_refetch _ [] r l' s Hr).
Qed.

Lemma post_event_after_refetch_duplicates_witness :
  let response := Refetched (messagesResponse ([msgYo] ++ [msgHi])) in
  let event := Posted (postedEvent msgHi) in
  messages (replay [event; response] (initialState (lit "A")))
    = [msgYo] ++ [msgHi]
  /\ messages (replay [response; event] (initialState (lit "A")))
     = [msgYo] ++ [msgHi; msgHi]
  /\ (2 <= countId (Message.id msgHi)
             (messages (replay [response; event] (initialState (lit "A")))))%nat
  /\ messages (replay [response; event; Refetched (messagesResponse [msgYo])]
                 (initialState (lit "A"))) = [msgYo].
Proof.
  apply (post_event_after_refetch_duplicates (initialState (lit "A"))
           [msgYo] msgHi (messagesResponse [msgYo]) [msgYo]).
  reflexivity.
Defined.
